(** * mal_log front-end types: severities and argument wrappers

  Shallow embedding of [include/mal_log/frontend_types.hpp]:
  the [sev::severity] enumeration and the four plain structs a log call
  site uses to tag its arguments ([deep_copy_bytes], [deep_copy_string],
  [literal_wrapper], [ptr_wrapper]). *)

From stdpp Require Import base decidable list finite numbers.

Local Open Scope Z_scope.

(** ** [struct sev { enum severity {...}; };] *)

Module sev.

Inductive severity : Set :=
| debug
| trace
| notice
| warning
| error
| critical
| off
| invalid.

(** The enumerator values written in the header. *)
Definition code (s : severity) : Z :=
  match s with
  | debug    => 0
  | trace    => 1
  | notice   => 2
  | warning  => 3
  | error    => 4
  | critical => 5
  | off      => 6
  | invalid  => 7
  end.

#[global] Instance severity_eq_dec : EqDecision severity.
Proof. solve_decision. Defined.

(** The six emission levels, in declaration order, and the two sentinels
    that follow them. *)
Definition levels : list severity :=
  [debug; trace; notice; warning; error; critical].

Definition sentinels : list severity := [off; invalid].

(** Comparison of two enumerators is comparison of their values (the
    built-in relational operators on an unscoped enumeration). *)
Definition lt (a b : severity) : Prop := code a < code b.
Definition le (a b : severity) : Prop := code a <= code b.
Definition geb (a b : severity) : bool := code b <=? code a.
Definition neqb (a b : severity) : bool := negb (code a =? code b).

#[global] Instance lt_dec (a b : severity) : Decision (lt a b).
Proof. unfold lt. apply _. Defined.

(** The enumeration is closed: these eight enumerators and no others. *)
#[global, program] Instance severity_finite : Finite severity :=
  {| enum := levels ++ sentinels |}.
Next Obligation. by apply (bool_decide_unpack _). Qed.
Next Obligation. intros []; by apply (bool_decide_unpack _). Qed.

End sev.

(** ** The wrapper structs *)

(** [const void*] / [const char*]: either the null pointer or an address. *)
Inductive pointer : Set :=
| nullptr
| addr (a : N).

#[global] Instance pointer_eq_dec : EqDecision pointer.
Proof. solve_decision. Defined.

(** Modelled from the spec: [uword] is declared in
  [mal_log/util/integer.hpp], which is not part of the sources at hand;
  the spec calls the field a size measured in bytes, so it is an
  unsigned count.  No arithmetic is done on it in this header. *)
Definition uword : Set := N.

(** [struct delimited_mem { const void* mem; uword size; };] *)
Record delimited_mem : Set := mk_delimited_mem {
mem  : pointer;
size : uword;
}.

(** [struct deep_copy_bytes : public delimited_mem {};]
  The only content is the base sub-object. *)
Record deep_copy_bytes : Set := mk_deep_copy_bytes {
bytes_base :> delimited_mem;
}.

(** [struct deep_copy_string : public delimited_mem {};] *)
Record deep_copy_string : Set := mk_deep_copy_string {
string_base :> delimited_mem;
}.

(** [struct literal_wrapper { const char* lit; };] *)
Record literal_wrapper : Set := mk_literal_wrapper {
lit : pointer;
}.

(** [struct ptr_wrapper { const void* ptr; };] *)
Record ptr_wrapper : Set := mk_ptr_wrapper {
ptr : pointer;
}.

#[global] Instance delimited_mem_eq_dec : EqDecision delimited_mem.
Proof. solve_decision. Defined.
#[global] Instance deep_copy_bytes_eq_dec : EqDecision deep_copy_bytes.
Proof. solve_decision. Defined.
#[global] Instance deep_copy_string_eq_dec : EqDecision deep_copy_string.
Proof. solve_decision. Defined.
#[global] Instance literal_wrapper_eq_dec : EqDecision literal_wrapper.
Proof. solve_decision. Defined.
#[global] Instance ptr_wrapper_eq_dec : EqDecision ptr_wrapper.
Proof. solve_decision. Defined.

(** What a reader of a wrapper can observe: its data members. *)
Definition bytes_fields (b : deep_copy_bytes) : pointer * uword :=
(mem b, size b).
Definition string_fields (s : deep_copy_string) : pointer * uword :=
(mem s, size s).

Definition bytes_of_fields (f : pointer * uword) : deep_copy_bytes :=
mk_deep_copy_bytes (mk_delimited_mem f.1 f.2).
Definition string_of_fields (f : pointer * uword) : deep_copy_string :=
mk_deep_copy_string (mk_delimited_mem f.1 f.2).

(** Re-tagging: same base sub-object under the other derived type. *)
Definition bytes_as_string (b : deep_copy_bytes) : deep_copy_string :=
mk_deep_copy_string (bytes_base b).
Definition string_as_bytes (s : deep_copy_string) : deep_copy_bytes :=
mk_deep_copy_bytes (string_base s).

(** ** Evaluating a construction

  An expression is evaluated against the program's memory; it either
  returns a value or raises, and in both cases leaves a memory behind.
  The memory is kept abstract: nothing below depends on its shape. *)

Section Construction.

Variable memory : Type.

Inductive outcome (A : Type) : Type :=
| Returned (a : A) (m : memory)
| Raised (m : memory).
Arguments Returned {A} a m.
Arguments Raised {A} m.

Definition eval (A : Type) : Type := memory → outcome A.

Definition ret {A} (a : A) : eval A := λ m, Returned a m.

Definition bind {A B} (c : eval A) (k : A → eval B) : eval B :=
  λ m, match c m with
       | Returned a m' => k a m'
       | Raised m' => Raised m'
       end.

(** None of the structs declares a constructor, a destructor or a member
    function: constructing one initialises its data members from the
    given values and does nothing else. *)
Definition construct_delimited_mem (p : pointer) (n : uword)
  : eval delimited_mem :=
  ret {| mem := p; size := n |}.

Definition construct_deep_copy_bytes (p : pointer) (n : uword)
  : eval deep_copy_bytes :=
  bind (construct_delimited_mem p n) (λ base, ret (mk_deep_copy_bytes base)).

Definition construct_deep_copy_string (p : pointer) (n : uword)
  : eval deep_copy_string :=
  bind (construct_delimited_mem p n) (λ base, ret (mk_deep_copy_string base)).

Definition construct_literal_wrapper (l : pointer) : eval literal_wrapper :=
  ret {| lit := l |}.

Definition construct_ptr_wrapper (p : pointer) : eval ptr_wrapper :=
  ret {| ptr := p |}.

(** Two constructions one after the other, the second one starting in
    the memory the first one left. *)
Definition construct_twice {A} (c : eval A) : eval (A * A) :=
  bind c (λ a, bind c (λ b, ret (a, b))).

End Construction.

Arguments Returned {memory A} a m.
Arguments Raised {memory A} m.
Arguments ret {memory A} a.
Arguments bind {memory A B} c k.
Arguments construct_delimited_mem {memory} p n.
Arguments construct_deep_copy_bytes {memory} p n.
Arguments construct_deep_copy_string {memory} p n.
Arguments construct_literal_wrapper {memory} l.
Arguments construct_ptr_wrapper {memory} p.
Arguments construct_twice {memory A} c.

(** ** Severity filter *)

Module severity_filter.
Import sev.

(** Modelled from the spec: [is_enabled] is not defined in the header at
    hand (the severity filter lives with the logger front-end); the
    contract reads "returns true iff [level != invalid] and
    [level >= threshold]", the comparisons being those of the
    enumeration. *)
Definition is_enabled (level threshold : severity) : bool :=
  neqb level invalid && geb level threshold.

(** The emission levels a threshold lets through. *)
Definition enabled_levels (threshold : severity) : list severity :=
  filter (λ s, is_enabled s threshold) levels.

End severity_filter.

(** ** The spec's reading of the two copying variants

    The spec's words: a discriminated sum in which "each variant owns its
    own (pointer, size) pair", selected by the tag.  [copy_arg] is what the
    header gives instead: one of the two derived structs. *)

Inductive spec_copy_arg : Set :=
| spec_bytes (address : pointer) (size_in_bytes : uword)
| spec_string (address : pointer) (size_in_bytes : uword).

Definition copy_arg : Set := (deep_copy_bytes + deep_copy_string)%type.

Definition to_spec_copy_arg (a : copy_arg) : spec_copy_arg :=
match a with
| inl b => spec_bytes (mem b) (size b)
| inr s => spec_string (mem s) (size s)
end.

Definition of_spec_copy_arg (a : spec_copy_arg) : copy_arg :=
match a with
| spec_bytes p n => inl (bytes_of_fields (p, n))
| spec_string p n => inr (string_of_fields (p, n))
end.

(** * Properties *)

(** ** The enumeration *)

Section SeverityFacts.
Import sev.

Lemma code_range (s : severity) : 0 <= code s <= 7.
Proof. destruct s; simpl; lia. Qed.

Lemma code_inj : Inj (=) (=) code.
Proof. intros [] []; simpl; intros H; try reflexivity; discriminate H. Qed.

Lemma code_invalid_max (s : severity) : code s <= code invalid.
Proof. apply code_range. Qed.

Lemma sentinel_codes : map code sentinels = [6; 7].
Proof. by vm_compute. Qed.

Lemma lt_strict : StrictOrder lt.
Proof.
  split.
  - intros s. unfold complement, lt. lia.
  - intros a b c. unfold lt. lia.
Qed.

Lemma lt_trichotomy : Trichotomy lt.
Proof.
  intros a b. unfold lt.
  destruct (Z.lt_trichotomy (code a) (code b)) as [H | [H | H]].
  - by left.
  - right; left. by apply code_inj.
  - right; right. lia.
Qed.

Lemma neqb_true (a b : severity) : neqb a b = true ↔ a ≠ b.
Proof.
  unfold neqb. rewrite negb_true_iff, Z.eqb_neq. split.
  - intros H ->. by apply H.
  - intros H E. by apply H, code_inj.
Qed.

Lemma geb_true (a b : severity) : geb a b = true ↔ code a >= code b.
Proof. unfold geb. rewrite Z.leb_le. lia. Qed.

(** C2: the six levels carry the codes 0..5 and are strictly increasing in
    declaration order; comparison by code is a strict total order on the
    whole enumeration; the enumeration is closed (exactly the six levels
    followed by [off] and [invalid], eight distinct members); and the two
    sentinels differ from each other and from every level. *)
Theorem severity_codes_and_order :
  map code levels = [0; 1; 2; 3; 4; 5]
  ∧ (lt debug trace ∧ lt trace notice ∧ lt notice warning
     ∧ lt warning error ∧ lt error critical)
  ∧ StrictOrder lt ∧ Trichotomy lt
  ∧ (∀ s : severity, s ∈ levels ++ sentinels)
  ∧ NoDup (levels ++ sentinels)
  ∧ card severity = 8%nat
  ∧ off ≠ invalid ∧ (off ∉ levels) ∧ (invalid ∉ levels).
Proof.
  split; [reflexivity|].
  split; [unfold lt; simpl; lia|].
  split; [exact lt_strict|].
  split; [exact lt_trichotomy|].
  split; [exact (elem_of_enum (A:=severity))|].
  split; [exact (NoDup_enum severity)|].
  split; [reflexivity|].
  split; [discriminate|].
  split; by apply (bool_decide_unpack _).
Qed.

End SeverityFacts.

(** ** The severity filter *)

Section FilterFacts.
Import sev severity_filter.

(** C1: [is_enabled S T] holds exactly when [S] is not [invalid] and the
    code of [S] is at least the code of [T]. *)
Theorem is_enabled_iff (S T : severity) :
  is_enabled S T = true ↔ S ≠ invalid ∧ code S >= code T.
Proof.
  unfold is_enabled.
  by rewrite andb_true_iff, neqb_true, geb_true.
Qed.

Lemma is_enabled_false_iff (S T : severity) :
  is_enabled S T = false ↔ S = invalid ∨ code S < code T.
Proof.
  rewrite <- not_true_iff_false, is_enabled_iff.
  destruct (decide (S = invalid)) as [-> | NE].
  - split; [by left | by intros _ []].
  - split.
    + intros H. right. destruct (Z_lt_ge_dec (code S) (code T)); [done|].
      exfalso. by apply H.
    + intros [? | ?] [? ?]; [done | lia].
Qed.

(** C3: [invalid] is never enabled, whatever the threshold. *)
Theorem invalid_level_never_enabled (T : severity) :
  is_enabled invalid T = false.
Proof. apply is_enabled_false_iff. by left. Qed.

(** C4: under the threshold [invalid] no severity is enabled. *)
Theorem invalid_threshold_enables_nothing (S : severity) :
  is_enabled S invalid = false.
Proof.
  apply is_enabled_false_iff.
  destruct (decide (S = invalid)) as [-> | NE]; [by left | right].
  pose proof (code_invalid_max S) as Hmax.
  assert (code S ≠ code invalid) by (intros E; by apply NE, code_inj).
  lia.
Qed.

(** Under the threshold [off] the only severity the formula lets through
    is the sentinel [off] itself, which is not an emission level. *)
Lemma is_enabled_off_iff (S : severity) :
  is_enabled S off = true ↔ S = off.
Proof.
  rewrite is_enabled_iff. split.
  - intros [NI Hge]. apply code_inj.
    pose proof (code_range S) as Hr.
    assert (code S ≠ code invalid) by (intros E; by apply NI, code_inj).
    simpl in *. lia.
  - intros ->. split; [discriminate | simpl; lia].
Qed.

(** C5: the threshold [off] disables every level: for each of the six
    levels [debug] .. [critical], [critical] included,
    [is_enabled S off] is false. *)
Theorem off_threshold_disables_every_level (S : severity) :
  S ∈ levels → is_enabled S off = false.
Proof.
  intros HS. apply not_true_iff_false. rewrite is_enabled_off_iff.
  intros ->. revert HS. by apply (bool_decide_unpack _).
Qed.

Lemma off_threshold_disables_every_level_witness :
  critical ∈ levels ∧ is_enabled critical off = false.
Proof.
  assert (critical ∈ levels) as HS by (by apply (bool_decide_unpack _)).
  split; [exact HS | exact (off_threshold_disables_every_level critical HS)].
Defined.

(** The scenario of the spec: threshold [warning] over the six levels. *)
Lemma enabled_levels_warning :
  enabled_levels warning = [warning; error; critical].
Proof. reflexivity. Qed.

Lemma enabled_levels_off : enabled_levels off = [].
Proof. reflexivity. Qed.

Lemma enabled_levels_invalid : enabled_levels invalid = [].
Proof. reflexivity. Qed.

End FilterFacts.

(** ** The wrappers as records *)

Lemma delimited_mem_ext (a b : delimited_mem) :
  mem a = mem b → size a = size b → a = b.
Proof. destruct a, b; simpl; by intros -> ->. Qed.

Lemma bytes_fields_inj : Inj (=) (=) bytes_fields.
Proof.
  intros [a] [b]; unfold bytes_fields; simpl; intros E.
  f_equal. apply delimited_mem_ext; congruence.
Qed.

Lemma string_fields_inj : Inj (=) (=) string_fields.
Proof.
  intros [a] [b]; unfold string_fields; simpl; intros E.
  f_equal. apply delimited_mem_ext; congruence.
Qed.

Lemma bytes_fields_of_fields (f : pointer * uword) :
  bytes_fields (bytes_of_fields f) = f.
Proof. by destruct f. Qed.

Lemma string_fields_of_fields (f : pointer * uword) :
  string_fields (string_of_fields f) = f.
Proof. by destruct f. Qed.

Lemma bytes_of_fields_fields (b : deep_copy_bytes) :
  bytes_of_fields (bytes_fields b) = b.
Proof. apply bytes_fields_inj, bytes_fields_of_fields. Qed.

Lemma string_of_fields_fields (s : deep_copy_string) :
  string_of_fields (string_fields s) = s.
Proof. apply string_fields_inj, string_fields_of_fields. Qed.

Lemma to_of_spec_copy_arg (a : spec_copy_arg) :
  to_spec_copy_arg (of_spec_copy_arg a) = a.
Proof. by destruct a. Qed.

Lemma of_to_spec_copy_arg (a : copy_arg) :
  of_spec_copy_arg (to_spec_copy_arg a) = a.
Proof.
  destruct a as [b | s]; simpl; f_equal.
  - apply (bytes_of_fields_fields b).
  - apply (string_of_fields_fields s).
Qed.

(** C9: a [deep_copy_bytes] and a [deep_copy_string] are each exactly an
    (address, size) pair: reading the two fields is a bijection onto the
    pairs, for both types; re-tagging one as the other keeps both fields
    and is undone by re-tagging back; and the header's two structs match
    the spec's sum of two (pointer, size) variants one to one, tag for tag. *)
Theorem deep_copy_variants_are_delimited_pairs :
  Cancel (=) bytes_of_fields bytes_fields
  ∧ Cancel (=) bytes_fields bytes_of_fields
  ∧ Cancel (=) string_of_fields string_fields
  ∧ Cancel (=) string_fields string_of_fields
  ∧ (∀ b, string_fields (bytes_as_string b) = bytes_fields b)
  ∧ (∀ s, bytes_fields (string_as_bytes s) = string_fields s)
  ∧ Cancel (=) string_as_bytes bytes_as_string
  ∧ Cancel (=) bytes_as_string string_as_bytes
  ∧ Cancel (=) of_spec_copy_arg to_spec_copy_arg
  ∧ Cancel (=) to_spec_copy_arg of_spec_copy_arg
  ∧ (∀ p n, to_spec_copy_arg (inl (bytes_of_fields (p, n))) = spec_bytes p n)
  ∧ (∀ p n, to_spec_copy_arg (inr (string_of_fields (p, n))) = spec_string p n).
Proof.
  repeat split.
  - exact bytes_of_fields_fields.
  - exact bytes_fields_of_fields.
  - exact string_of_fields_fields.
  - exact string_fields_of_fields.
  - by intros [b].
  - by intros [s].
  - exact of_to_spec_copy_arg.
  - exact to_of_spec_copy_arg.
Qed.

(** ** Construction *)

Section ConstructionFacts.
Context {memory : Type}.
Implicit Types (m : memory) (p l : pointer) (n : uword).

Lemma bind_ret_l {A B} (a : A) (k : A → eval memory B) m :
  bind (ret a) k m = k a m.
Proof. reflexivity. Qed.

Lemma bind_returned {A B} (c : eval memory A) (k : A → eval memory B) a m m' :
  c m = Returned a m' → bind c k m = k a m'.
Proof. unfold bind. by intros ->. Qed.

Lemma construct_delimited_mem_run p n m :
  construct_delimited_mem p n m = Returned (mk_delimited_mem p n) m.
Proof. reflexivity. Qed.

Lemma construct_deep_copy_bytes_run p n m :
  construct_deep_copy_bytes p n m = Returned (bytes_of_fields (p, n)) m.
Proof.
  unfold construct_deep_copy_bytes.
  by rewrite (bind_returned _ _ _ _ _ (construct_delimited_mem_run p n m)).
Qed.

Lemma construct_deep_copy_string_run p n m :
  construct_deep_copy_string p n m = Returned (string_of_fields (p, n)) m.
Proof.
  unfold construct_deep_copy_string.
  by rewrite (bind_returned _ _ _ _ _ (construct_delimited_mem_run p n m)).
Qed.

Lemma construct_twice_returned {A} (c : eval memory A) a m :
  c m = Returned a m → construct_twice c m = Returned (a, a) m.
Proof.
  intros H. unfold construct_twice.
  rewrite (bind_returned _ _ _ _ _ H), (bind_returned _ _ _ _ _ H).
  reflexivity.
Qed.

(** C6: for a size [n > 0], constructing [deep_copy_bytes] from [(p, n)]
    returns a value whose [mem] and [size] are [p] and [n], and leaves the
    memory as it found it. *)
Theorem deep_copy_bytes_stores_pair p n m :
  (0 < n)%N →
  ∃ b : deep_copy_bytes,
    construct_deep_copy_bytes p n m = Returned b m
    ∧ mem b = p ∧ size b = n.
Proof.
  intros _. exists (bytes_of_fields (p, n)).
  split; [apply construct_deep_copy_bytes_run | by split].
Qed.

(** C7: constructing [ptr_wrapper] from the null pointer returns (it does
    not raise), and the stored [ptr] is the null pointer. *)
Theorem ptr_wrapper_null m :
  ∃ w : ptr_wrapper,
    construct_ptr_wrapper nullptr m = Returned w m ∧ ptr w = nullptr.
Proof. by exists (mk_ptr_wrapper nullptr). Qed.

(** C8: constructing [literal_wrapper] twice from the same address, one
    after the other, returns two values with the same [lit] (the address
    given), equal as records, and the memory is the one before. *)
Theorem literal_wrapper_twice l m :
  ∃ a b : literal_wrapper,
    construct_twice (construct_literal_wrapper l) m = Returned (a, b) m
    ∧ lit a = l ∧ lit b = l ∧ a = b.
Proof.
  exists (mk_literal_wrapper l), (mk_literal_wrapper l).
  split; [|done].
  by apply construct_twice_returned.
Qed.

(** C10: for every pointer, null included, and every size, constructing
    [deep_copy_bytes] or [deep_copy_string] returns the value holding
    exactly that pair and never raises; the null pointer with a positive
    size is stored like any other pair. *)
Theorem deep_copy_construction_unchecked p n m :
  construct_deep_copy_bytes p n m = Returned (bytes_of_fields (p, n)) m
  ∧ bytes_fields (bytes_of_fields (p, n)) = (p, n)
  ∧ construct_deep_copy_string p n m = Returned (string_of_fields (p, n)) m
  ∧ string_fields (string_of_fields (p, n)) = (p, n)
  ∧ (∀ m', construct_deep_copy_bytes p n m ≠ Raised m')
  ∧ (∀ m', construct_deep_copy_string p n m ≠ Raised m').
Proof.
  rewrite construct_deep_copy_bytes_run, construct_deep_copy_string_run.
  by repeat split.
Qed.

End ConstructionFacts.

Lemma deep_copy_bytes_stores_pair_witness :
  (0 < 16)%N
  ∧ ∃ b : deep_copy_bytes,
      construct_deep_copy_bytes (addr 4096) 16%N [0; 0; 0] = Returned b [0; 0; 0]
      ∧ mem b = addr 4096 ∧ size b = 16%N.
Proof.
  split; [lia | apply (deep_copy_bytes_stores_pair (addr 4096) 16%N [0; 0; 0]); lia].
Defined.

(** A null pointer with a positive size goes through unchanged. *)
Lemma deep_copy_bytes_null_positive :
  construct_deep_copy_bytes nullptr 16%N () =
    Returned (mk_deep_copy_bytes (mk_delimited_mem nullptr 16%N)) ().
Proof. reflexivity. Qed.

Lemma deep_copy_string_null_positive :
  construct_deep_copy_string nullptr 16%N () =
    Returned (mk_deep_copy_string (mk_delimited_mem nullptr 16%N)) ().
Proof. reflexivity. Qed.

(** ** Further facts about the enumeration *)

Section SeverityLayout.
Import sev.

(** The sentinels sit above the levels: a severity is one of the six
    emission levels exactly when it compares below [off], it is a sentinel
    exactly when it compares at or above [off], and nothing compares above
    [invalid]. *)
Theorem levels_are_below_off (s : severity) :
  (s ∈ levels ↔ lt s off)
  ∧ (s ∈ sentinels ↔ le off s)
  ∧ le s invalid.
Proof.
  unfold lt, le.
  split; [|split; [|apply code_invalid_max]].
  - split.
    + intros H. destruct s; simpl; try lia;
        exfalso; revert H; by apply (bool_decide_unpack _).
    + intros H. destruct s; simpl in H; try lia;
        by apply (bool_decide_unpack _).
  - split.
    + intros H. destruct s; simpl; try lia;
        exfalso; revert H; by apply (bool_decide_unpack _).
    + intros H. destruct s; simpl in H; try lia;
        by apply (bool_decide_unpack _).
Qed.

(** The written enumerator values are the positions in declaration order:
    the [i]-th enumerator (counting from 0) is [s] exactly when the value
    of [s] is [i]. *)
Theorem code_is_declaration_index (s : severity) (i : nat) :
  (levels ++ sentinels) !! i = Some s ↔ code s = Z.of_nat i.
Proof.
  split.
  - intros H.
    do 8 (destruct i as [|i]; [by inversion H|]).
    discriminate H.
  - intros H.
    assert (i = Z.to_nat (code s)) as -> by lia.
    by destruct s.
Qed.

(** The values leave no gap: every integer from 0 to 7 is the value of
    exactly one enumerator. *)
Theorem code_dense (z : Z) :
  0 <= z <= 7 → ∃ s : severity, code s = z ∧ ∀ s', code s' = z → s' = s.
Proof.
  intros Hz.
  assert (∃ s, code s = z) as [s Hs].
  { assert (z = 0 ∨ z = 1 ∨ z = 2 ∨ z = 3 ∨ z = 4 ∨ z = 5 ∨ z = 6 ∨ z = 7)
      as Hc by lia.
    destruct Hc as [-> | [-> | [-> | [-> | [-> | [-> | [-> | ->]]]]]]].
    - by exists debug.
    - by exists trace.
    - by exists notice.
    - by exists warning.
    - by exists error.
    - by exists critical.
    - by exists off.
    - by exists invalid. }
  exists s. split; [done|].
  intros s' Hs'. apply code_inj. congruence.
Qed.

Lemma code_dense_witness :
  0 <= 3 <= 7
  ∧ ∃ s : severity, code s = 3 ∧ ∀ s', code s' = 3 → s' = s.
Proof.
  split; [lia | apply (code_dense 3); lia].
Defined.

End SeverityLayout.
